(** * Dynamic flux balance analysis notebook (documentation_builder/dfba.ipynb)

    A shallow embedding of the three functions of the notebook
    ([add_dynamic_bounds], [dynamic_system], [infeasible_event]) and of the
    cell that runs the simulation, together with the properties stated about
    them.

    Numbers are exact rationals ([Q]): the rounding, the infinities and the
    NaN of the float64 values the notebook computes with are outside of the
    model.  The metabolic model is a record of reaction bounds, an objective
    and a constraint set; the LP engine behind it, the progress bar and the
    ODE integrator are interfaces ([Cobra], [Integrator]). *)

From Stdlib Require Import QArith Qminmax Lqa ZArith.
From stdpp Require Import base option list strings gmap.

Open Scope Q_scope.

(** ** Python results *)

Inductive PyError : Type :=
| ValueError      (* unpacking a sequence of the wrong length *)
| AttributeError. (* looking up a reaction the model does not have *)

Inductive result (A : Type) : Type :=
| Ok (a : A)
| Raise (e : PyError).
Arguments Ok {A} a.
Arguments Raise {A} e.

(** [biomass, glucose = y] *)
Definition unpack2 (y : list Q) : result (Q * Q) :=
  match y with
  | [biomass; glucose] => Ok (biomass, glucose)
  | _ => Raise ValueError
  end.

(** ** The metabolic model *)

(** Modelled from the spec: cobra's Reaction class, which the notebook only
    uses.  A reaction carries its two flux bounds, and assigning to
    [lower_bound] stores the value in that field. *)
Record Reaction : Type := mkReaction {
  lower_bound : Q;
  upper_bound : Q
}.

(** Modelled from the spec: [reaction.lower_bound = value], the assignment
    to the attribute of a reaction. *)
Definition set_lower_bound (value : Q) (r : Reaction) : Reaction :=
  {| lower_bound := value; upper_bound := upper_bound r |}.

(** The reaction network with its flux bounds, the objective and the
    constraint set.  What an objective and a constraint are is the solver's
    business. *)
Record Model (Objective Constraint : Type) : Type := mkModel {
  reactions : gmap string Reaction;
  objective : Objective;
  constraints : list Constraint
}.
Arguments mkModel {Objective Constraint}.
Arguments reactions {Objective Constraint}.
Arguments objective {Objective Constraint}.
Arguments constraints {Objective Constraint}.

(** The LP engine and the number formatting of the progress bar are
    parameters of the notebook.  A helper of cobra.util mutates the model it
    is given, so it returns the model it leaves behind;
    [fix_objective_as_constraint] also returns the optimal value it fixes.
    [set_objective rxn_id obj_dir] makes a reaction the objective, to be
    optimised in the given direction. *)
Class Cobra : Type := {
  Objective : Type;
  Constraint : Type;
  add_lp_feasibility :
    Model Objective Constraint -> Model Objective Constraint;
  fix_objective_as_constraint :
    Model Objective Constraint -> Model Objective Constraint * Q;
  set_objective :
    string -> string -> Model Objective Constraint ->
    Model Objective Constraint;
  format_3f : Q -> string
}.

Abbreviation CobraModel := (Model Objective Constraint).

Definition EX_glc__D_e : string := "EX_glc__D_e".
Definition Biomass_Ecoli_core : string := "Biomass_Ecoli_core".

(** ** add_dynamic_bounds *)

(** [glucose_max_import = -10 * glucose / (5 + glucose)].  The quotient is
    that of the rationals; where [5 + glucose] is zero it has Rocq's
    conventional value 0, float64 gives an infinity there. *)
Definition glucose_max_import (glucose : Q) : Q :=
  (-10 # 1) * glucose / (5 + glucose).

Definition add_dynamic_bounds `{Cobra} (model : CobraModel) (y : list Q)
  : result CobraModel :=
  match unpack2 y with
  | Raise e => Raise e
  | Ok (biomass, glucose) =>
      match reactions model !! EX_glc__D_e with
      | None => Raise AttributeError
      | Some r =>
          Ok {| reactions :=
                  <[EX_glc__D_e :=
                      set_lower_bound (glucose_max_import glucose) r]>
                    (reactions model);
                objective := objective model;
                constraints := constraints model |}
      end
  end.

(** Modelled from the spec: cobra.util.add_lexicographic_constraints, which
    the notebook only calls.  The objectives are optimised in the order
    given, each one fixed as a constraint before the next is optimised, and
    the optimal values come back one per objective. *)
Fixpoint add_lexicographic_constraints `{Cobra} (model : CobraModel)
    (objectives objective_direction : list string)
  : CobraModel * list Q :=
  match objectives, objective_direction with
  | rxn_id :: objectives', obj_dir :: directions' =>
      let '(model1, value) :=
        fix_objective_as_constraint (set_objective rxn_id obj_dir model) in
      let '(model2, values) :=
        add_lexicographic_constraints model1 objectives' directions' in
      (model2, value :: values)
  | _, _ => (model, [])
  end.

(** ** The state of the notebook *)

(** The progress bar [dynamic_system.pbar] (tqdm, an external library), as
    far as the notebook uses it: a counter and a description. *)
Record Pbar : Type := mkPbar {
  pbar_n : Z;
  pbar_desc : string
}.

Definition tqdm : Pbar := {| pbar_n := 0; pbar_desc := EmptyString |}.

Record World `{Cobra} : Type := mkWorld {
  model : CobraModel;
  dynamic_system_pbar : option Pbar
}.

(** Computations that read and write the notebook's globals and may raise. *)
Definition M `{Cobra} (A : Type) : Type := World -> World * result A.

#[export] Instance M_ret `{Cobra} : MRet M :=
  fun A (a : A) w => (w, Ok a).

#[export] Instance M_bind `{Cobra} : MBind M :=
  fun A B (f : A -> M B) (c : M A) w =>
    match c w with
    | (w', Ok a) => f a w'
    | (w', Raise e) => (w', Raise e)
    end.

Definition lift_result `{Cobra} {A} (r : result A) : M A :=
  fun w => (w, r).

(** A helper that mutates the model passed to it and returns a value. *)
Definition call_model `{Cobra} {A} (f : CobraModel -> CobraModel * A) : M A :=
  fun w =>
    let '(m, a) := f (model w) in
    ({| model := m; dynamic_system_pbar := dynamic_system_pbar w |}, Ok a).

(** A helper that mutates the model passed to it, or raises and leaves it. *)
Definition update_model `{Cobra} (f : CobraModel -> result CobraModel)
  : M unit :=
  fun w =>
    match f (model w) with
    | Ok m =>
        ({| model := m; dynamic_system_pbar := dynamic_system_pbar w |}, Ok tt)
    | Raise e => (w, Raise e)
    end.

(** Modelled from the spec: the model's context manager ([with model:]),
    which the notebook only enters.  The model is mutated temporarily inside
    the block and restored when the block is left, by its end or by an
    exception. *)
Definition with_model `{Cobra} {A} (body : M A) : M A :=
  fun w =>
    let '(w', r) := body w in
    ({| model := model w; dynamic_system_pbar := dynamic_system_pbar w' |}, r).

(** [pbar.update(1)] and [pbar.set_description('t = {:.3f}'.format(t))],
    when a progress bar is attached. *)
Definition pbar_progress `{Cobra} (t : Q) : M unit :=
  fun w =>
    match dynamic_system_pbar w with
    | None => (w, Ok tt)
    | Some pbar =>
        ({| model := model w;
            dynamic_system_pbar :=
              Some {| pbar_n := pbar_n pbar + 1;
                      pbar_desc := "t = " +:+ format_3f t |} |}, Ok tt)
    end.

(** ** dynamic_system *)

(** The body of the [with model:] block of [dynamic_system]. *)
Definition lexicographic_solve `{Cobra} (y : list Q) : M (list Q) :=
  update_model (fun model => add_dynamic_bounds model y);;
  call_model (fun model => (add_lp_feasibility model, tt));;
  feasibility ← call_model fix_objective_as_constraint;
  call_model (fun model =>
    add_lexicographic_constraints model
      [Biomass_Ecoli_core; EX_glc__D_e] ["max"; "max"]%string).

Definition dynamic_system `{Cobra} (t : Q) (y : list Q) : M (list Q) :=
  '(biomass, glucose) ← lift_result (unpack2 y);
  lex_constraints ← with_model (lexicographic_solve y);
  let fluxes := (fun flux => flux * biomass) <$> lex_constraints in
  pbar_progress t;;
  mret fluxes.

(** ** infeasible_event *)

Definition infeasible_event_epsilon : Q := 1 # 1000000.
Definition infeasible_event_direction : Z := 1.
Definition infeasible_event_terminal : bool := true.

(** The body of the [with model:] block of [infeasible_event]: the value
    bound to [feasibility]. *)
Definition lp_feasibility `{Cobra} (y : list Q) : M Q :=
  update_model (fun model => add_dynamic_bounds model y);;
  call_model (fun model => (add_lp_feasibility model, tt));;
  call_model fix_objective_as_constraint.

Definition infeasible_event `{Cobra} (t : Q) (y : list Q) : M Q :=
  feasibility ← with_model (lp_feasibility y);
  mret (feasibility - infeasible_event_epsilon).

(** The value bound to [feasibility] for the trial state [y], as a function
    of the notebook's state. *)
Definition feasibility_distance `{Cobra} (w : World) (y : list Q) : result Q :=
  snd (with_model (lp_feasibility y) w).

(** A function object with the attributes the integrator reads from it. *)
Record EventFunction `{Cobra} : Type := mkEventFunction {
  event_call : Q -> list Q -> M Q;
  event_direction : Z;
  event_terminal : bool
}.

Definition infeasible_event_fn `{Cobra} : EventFunction :=
  {| event_call := infeasible_event;
     event_direction := infeasible_event_direction;
     event_terminal := infeasible_event_terminal |}.

(** ** Running the simulation *)

(** Modelled from the spec: np.linspace (numpy, an external library) gives
    [num] equally spaced points from [start] to [stop], both included. *)
Definition linspace (start stop : Q) (num : nat) : list Q :=
  let step := (stop - start) / (inject_Z (Z.of_nat num) - 1) in
  (fun i => start + inject_Z (Z.of_nat i) * step) <$> seq 0 num.

(** [a.min()] and [a.max()] of a non-empty array. *)
Definition array_min (a : list Q) : Q :=
  match a with
  | [] => 0
  | x :: xs => foldl Qmin x xs
  end.

Definition array_max (a : list Q) : Q :=
  match a with
  | [] => 0
  | x :: xs => foldl Qmax x xs
  end.

Definition ts : list Q := linspace 0 15 100.
Definition y0 : list Q := [1 # 10; 10].

(** The keyword arguments of a call of [solve_ivp]. *)
Record IvpCall `{Cobra} : Type := mkIvpCall {
  ivp_fun : Q -> list Q -> M (list Q);
  ivp_events : list EventFunction;
  ivp_t_span : Q * Q;
  ivp_y0 : list Q;
  ivp_t_eval : list Q;
  ivp_rtol : Q;
  ivp_atol : Q;
  ivp_method : string
}.

Definition solve_ivp_call `{Cobra} : IvpCall :=
  {| ivp_fun := dynamic_system;
     ivp_events := [infeasible_event_fn];
     ivp_t_span := (array_min ts, array_max ts);
     ivp_y0 := y0;
     ivp_t_eval := ts;
     ivp_rtol := 1 # 1000000;
     ivp_atol := 1 # 100000000;
     ivp_method := "BDF" |}.

(** The integrator is an external library: it calls [ivp_fun] and the event
    functions, which touch the notebook's state, and returns a solution
    object. *)
Class Integrator `{Cobra} : Type := {
  OdeResult : Type;
  solve_ivp : IvpCall -> M OdeResult
}.

(** [dynamic_system.pbar = pbar] *)
Definition attach_pbar `{Cobra} (pbar : Pbar) : M unit :=
  fun w => ({| model := model w; dynamic_system_pbar := Some pbar |}, Ok tt).

(** The cell that runs the simulation; its value is [sol]. *)
Definition run_simulation `{Integrator} : M OdeResult :=
  attach_pbar tqdm;;
  solve_ivp solve_ivp_call.

(** ** Event-triggered termination *)







(** ** A one-nutrient engine to run the notebook on

    The only nutrient is glucose: the uptake capacity is the negated lower
    bound of the exchange reaction, a maintenance demand has to be met from
    it, and what is left over is turned into biomass.  The LP is infeasible
    by the amount the capacity falls short of the demand. *)

Definition demo_uptake (m : Model string (string * Q)) : Q :=
  match reactions m !! EX_glc__D_e with
  | Some r => - lower_bound r
  | None => 0
  end.

Definition demo_optimum (demand : Q) (m : Model string (string * Q)) : Q :=
  if String.eqb (objective m) "feasibility"
  then Qmax 0 (demand - demo_uptake m)
  else if String.eqb (objective m) Biomass_Ecoli_core
  then (1 # 10) * Qmax 0 (demo_uptake m - demand)
  else - demo_uptake m.

Definition demo_cobra (demand : Q) : Cobra :=
  {| Objective := string;
     Constraint := string * Q;
     add_lp_feasibility m :=
       {| reactions := reactions m;
          objective := "feasibility";
          constraints := constraints m |};
     fix_objective_as_constraint m :=
       ({| reactions := reactions m;
           objective := objective m;
           constraints :=
             (objective m, demo_optimum demand m) :: constraints m |},
        demo_optimum demand m);
     set_objective rxn_id obj_dir m :=
       {| reactions := reactions m;
          objective := rxn_id;
          constraints := constraints m |};
     format_3f t := EmptyString |}.

Definition demo_model : Model string (string * Q) :=
  {| reactions :=
       {[ EX_glc__D_e := {| lower_bound := -10 # 1; upper_bound := 1000 |};
          Biomass_Ecoli_core := {| lower_bound := 0; upper_bound := 1000 |} ]};
     objective := Biomass_Ecoli_core;
     constraints := [] |}.

Definition demo_world (demand : Q) : @World (demo_cobra demand) :=
  @mkWorld (demo_cobra demand) demo_model None.


(** * Properties *)

(** ** The saturation function *)

Example glucose_max_import_at_10 : glucose_max_import 10 == -20 # 3.
Proof. reflexivity. Qed.

Example glucose_max_import_at_0 : glucose_max_import 0 == 0.
Proof. reflexivity. Qed.




(** ** add_dynamic_bounds *)

Lemma add_dynamic_bounds_ok `{Cobra} (model : CobraModel) (r : Reaction)
    (biomass glucose : Q) :
  reactions model !! EX_glc__D_e = Some r ->
  add_dynamic_bounds model [biomass; glucose]
  = Ok {| reactions :=
            <[EX_glc__D_e := set_lower_bound (glucose_max_import glucose) r]>
              (reactions model);
          objective := objective model;
          constraints := constraints model |}.
Proof. intros Hr. unfold add_dynamic_bounds. simpl. rewrite Hr. reflexivity. Qed.

Lemma add_dynamic_bounds_inv `{Cobra} (model model' : CobraModel) (y : list Q) :
  add_dynamic_bounds model y = Ok model' ->
  exists biomass glucose r,
    y = [biomass; glucose] /\
    reactions model !! EX_glc__D_e = Some r /\
    model' = {| reactions :=
                  <[EX_glc__D_e :=
                      set_lower_bound (glucose_max_import glucose) r]>
                    (reactions model);
                objective := objective model;
                constraints := constraints model |}.
Proof.
  unfold add_dynamic_bounds, unpack2.
  destruct y as [|biomass [|glucose [|extra rest]]]; try discriminate.
  destruct (reactions model !! EX_glc__D_e) as [r|] eqn:Hr; try discriminate.
  intros [= <-]. exists biomass, glucose, r. auto.
Qed.





(** C9: [add_dynamic_bounds] modifies only the lower bound of EX_glc__D_e:
    the upper bound of that reaction, every other reaction, the objective,
    the constraint set and the progress bar are left as they were, and the
    biomass component of the state has no effect on the model it leaves. *)
Theorem add_dynamic_bounds_frame `{Cobra}
    (w : World) (model' : CobraModel) (y : list Q) :
  add_dynamic_bounds (model w) y = Ok model' ->
  upper_bound <$> reactions model' !! EX_glc__D_e
    = upper_bound <$> reactions (model w) !! EX_glc__D_e /\
  (forall id : string,
     id <> EX_glc__D_e -> reactions model' !! id = reactions (model w) !! id) /\
  objective model' = objective (model w) /\
  constraints model' = constraints (model w) /\
  dynamic_system_pbar
    (fst (update_model (fun model => add_dynamic_bounds model y) w))
    = dynamic_system_pbar w /\
  (forall biomass glucose biomass' : Q,
     y = [biomass; glucose] ->
     add_dynamic_bounds (model w) [biomass'; glucose] = Ok model').
Proof.
  intros Hadd.
  destruct (add_dynamic_bounds_inv _ _ _ Hadd)
    as (biomass & glucose & r & -> & Hr & ->).
  simpl. repeat split.
  - rewrite lookup_insert_eq, Hr. reflexivity.
  - intros id Hid. apply lookup_insert_ne. congruence.
  - unfold update_model. rewrite Hadd. reflexivity.
  - intros b g b' [= -> ->]. apply (add_dynamic_bounds_ok _ r), Hr.
Qed.

Lemma add_dynamic_bounds_frame_witness :
  exists model' : @Model string (string * Q),
    @add_dynamic_bounds (demo_cobra 5) demo_model [1 # 10; 10] = Ok model' /\
    upper_bound <$> reactions model' !! EX_glc__D_e = Some 1000 /\
    reactions model' !! Biomass_Ecoli_core
      = reactions demo_model !! Biomass_Ecoli_core.
Proof.
  eexists. split; [vm_compute; reflexivity |].
  pose proof (@add_dynamic_bounds_frame (demo_cobra 5) (demo_world 5) _
                [1 # 10; 10] eq_refl) as (Hub & Hother & _).
  split.
  - exact Hub.
  - apply Hother. discriminate.
Defined.

(** ** The two [with model:] blocks *)

Lemma with_model_restores `{Cobra} {A} (body : M A) (w : World) :
  model (fst (with_model body w)) = model w.
Proof. unfold with_model. destruct (body w) as [w' r]. reflexivity. Qed.

(** One value per objective, as far as directions are given. *)
Lemma add_lexicographic_constraints_length `{Cobra}
    (objectives objective_direction : list string) :
  forall model : CobraModel,
    length (snd (add_lexicographic_constraints model objectives
                   objective_direction))
    = Nat.min (length objectives) (length objective_direction).
Proof.
  revert objective_direction.
  induction objectives as [|rxn_id objectives' IH];
    intros [|obj_dir directions'] model; try reflexivity.
  cbn [add_lexicographic_constraints].
  destruct (fix_objective_as_constraint (set_objective rxn_id obj_dir model))
    as [model1 value].
  specialize (IH directions' model1).
  destruct (add_lexicographic_constraints model1 objectives' directions')
    as [model2 values].
  cbn [snd length] in *. rewrite IH. reflexivity.
Qed.

Lemma lexicographic_solve_ok `{Cobra} (w : World) (y : list Q)
    (bounded : CobraModel) :
  add_dynamic_bounds (model w) y = Ok bounded ->
  let solved :=
    add_lexicographic_constraints
      (fst (fix_objective_as_constraint (add_lp_feasibility bounded)))
      [Biomass_Ecoli_core; EX_glc__D_e] ["max"; "max"]%string in
  lexicographic_solve y w
  = ({| model := fst solved;
        dynamic_system_pbar := dynamic_system_pbar w |}, Ok (snd solved)).
Proof.
  intros Hadd. unfold lexicographic_solve, mbind, M_bind, update_model, call_model.
  rewrite Hadd. cbn [model dynamic_system_pbar].
  destruct (fix_objective_as_constraint (add_lp_feasibility bounded))
    as [fixed feasibility].
  cbn [model dynamic_system_pbar fst snd].
  destruct (add_lexicographic_constraints fixed _ _) as [m values].
  reflexivity.
Qed.

Lemma lexicographic_solve_raise `{Cobra} (w : World) (y : list Q) (e : PyError) :
  add_dynamic_bounds (model w) y = Raise e ->
  lexicographic_solve y w = (w, Raise e).
Proof.
  intros Hadd. unfold lexicographic_solve, mbind, M_bind, update_model.
  rewrite Hadd. reflexivity.
Qed.

Lemma lp_feasibility_ok `{Cobra} (w : World) (y : list Q)
    (bounded : CobraModel) :
  add_dynamic_bounds (model w) y = Ok bounded ->
  let fixed := fix_objective_as_constraint (add_lp_feasibility bounded) in
  lp_feasibility y w
  = ({| model := fst fixed;
        dynamic_system_pbar := dynamic_system_pbar w |}, Ok (snd fixed)).
Proof.
  intros Hadd. unfold lp_feasibility, mbind, M_bind, update_model, call_model.
  rewrite Hadd. cbn [model dynamic_system_pbar].
  destruct (fix_objective_as_constraint (add_lp_feasibility bounded))
    as [fixed feasibility].
  reflexivity.
Qed.

Lemma lp_feasibility_raise `{Cobra} (w : World) (y : list Q) (e : PyError) :
  add_dynamic_bounds (model w) y = Raise e ->
  lp_feasibility y w = (w, Raise e).
Proof.
  intros Hadd. unfold lp_feasibility, mbind, M_bind, update_model.
  rewrite Hadd. reflexivity.
Qed.

Lemma world_eta `{Cobra} (w : World) :
  {| model := model w; dynamic_system_pbar := dynamic_system_pbar w |} = w.
Proof. destruct w. reflexivity. Qed.

(** An evaluation of the event function leaves the notebook's state alone. *)
Lemma infeasible_event_run `{Cobra} (w : World) (t : Q) (y : list Q) :
  infeasible_event t y w
  = (w, match feasibility_distance w y with
        | Ok feasibility => Ok (feasibility - infeasible_event_epsilon)
        | Raise e => Raise e
        end).
Proof.
  unfold infeasible_event, feasibility_distance, mbind, M_bind, with_model.
  destruct (add_dynamic_bounds (model w) y) as [bounded|e] eqn:Hadd.
  - rewrite (lp_feasibility_ok _ _ _ Hadd). cbn. rewrite world_eta. reflexivity.
  - rewrite (lp_feasibility_raise _ _ _ Hadd). cbn. rewrite world_eta. reflexivity.
Qed.

Lemma feasibility_distance_ok `{Cobra} (w : World) (y : list Q)
    (bounded : CobraModel) :
  add_dynamic_bounds (model w) y = Ok bounded ->
  feasibility_distance w y
  = Ok (snd (fix_objective_as_constraint (add_lp_feasibility bounded))).
Proof.
  intros Hadd. unfold feasibility_distance, with_model.
  rewrite (lp_feasibility_ok _ _ _ Hadd). reflexivity.
Qed.

Lemma dynamic_system_ok `{Cobra} (w : World) (t biomass glucose : Q)
    (bounded : CobraModel) :
  add_dynamic_bounds (model w) [biomass; glucose] = Ok bounded ->
  dynamic_system t [biomass; glucose] w
  = (fst (pbar_progress t w),
     Ok ((fun flux => flux * biomass) <$>
           snd (add_lexicographic_constraints
                  (fst (fix_objective_as_constraint
                          (add_lp_feasibility bounded)))
                  [Biomass_Ecoli_core; EX_glc__D_e] ["max"; "max"]%string))).
Proof.
  intros Hadd.
  unfold dynamic_system, mbind, M_bind, lift_result, with_model. cbn [unpack2].
  rewrite (lexicographic_solve_ok _ _ _ Hadd). cbn [model dynamic_system_pbar fst snd].
  rewrite world_eta.
  unfold pbar_progress. destruct (dynamic_system_pbar w); reflexivity.
Qed.

Lemma dynamic_system_raise `{Cobra} (w : World) (t biomass glucose : Q)
    (e : PyError) :
  add_dynamic_bounds (model w) [biomass; glucose] = Raise e ->
  dynamic_system t [biomass; glucose] w = (w, Raise e).
Proof.
  intros Hadd.
  unfold dynamic_system, mbind, M_bind, lift_result, with_model. cbn [unpack2].
  rewrite (lexicographic_solve_raise _ _ _ Hadd). cbn. rewrite world_eta.
  reflexivity.
Qed.

Lemma dynamic_system_bad_state `{Cobra} (w : World) (t : Q) (y : list Q) :
  length y <> 2%nat -> dynamic_system t y w = (w, Raise ValueError).
Proof.
  intros Hlen. unfold dynamic_system, mbind, M_bind, lift_result.
  destruct y as [|biomass [|glucose [|extra rest]]]; cbn; try reflexivity.
  contradiction Hlen. reflexivity.
Qed.

(** The three ways a call of [dynamic_system] can go: the state is not a
    2-vector, the bounds cannot be set, or the fluxes are returned. *)
Ltac dynamic_system_cases w y :=
  let Hlen := fresh "Hlen" in
  let Hadd := fresh "Hadd" in
  let biomass := fresh "biomass" in
  let glucose := fresh "glucose" in
  destruct (decide (length y = 2%nat)) as [Hlen|Hlen];
  [ destruct y as [|biomass [|glucose [|? ?]]]; try discriminate Hlen;
    destruct (add_dynamic_bounds (model w) [biomass; glucose])
      as [?bounded|?e] eqn:Hadd
  | ].

(** ** dynamic_system *)

(** C2: for every time and every state [(biomass, glucose)],
    [dynamic_system] returns the values of the lexicographic LP solve at the
    bounds set from the state, each multiplied by the biomass concentration,
    and [dynamic_system] is the right-hand side handed to the integrator. *)
Theorem dynamic_system_returns_scaled_fluxes `{Cobra}
    (w : World) (t biomass glucose : Q) (bounded : CobraModel) :
  add_dynamic_bounds (model w) [biomass; glucose] = Ok bounded ->
  let fixed := fst (fix_objective_as_constraint (add_lp_feasibility bounded)) in
  let specific_fluxes :=
    snd (add_lexicographic_constraints fixed
           [Biomass_Ecoli_core; EX_glc__D_e] ["max"; "max"]%string) in
  snd (dynamic_system t [biomass; glucose] w)
    = Ok ((fun flux => flux * biomass) <$> specific_fluxes) /\
  ivp_fun solve_ivp_call = dynamic_system.
Proof.
  intros Hadd fixed specific_fluxes. split; [| reflexivity].
  rewrite (dynamic_system_ok _ _ _ _ _ Hadd). reflexivity.
Qed.

Lemma dynamic_system_returns_scaled_fluxes_witness :
  snd (@dynamic_system (demo_cobra 5) 0 [1 # 10; 10] (demo_world 5))
    = Ok [25 # 1500; -100 # 150].
Proof.
  pose proof (@dynamic_system_returns_scaled_fluxes (demo_cobra 5)
                (demo_world 5) 0 (1 # 10) 10 _ eq_refl) as [Hrun _].
  exact Hrun.
Defined.

(** Inside the block the model is mutated: with the one-nutrient engine the
    bound is lowered and three constraints are added. *)
Example block_mutates_model :
  let inside :=
    model (fst (@lexicographic_solve (demo_cobra 5) [1 # 10; 10]
                  (demo_world 5))) in
  lower_bound <$> reactions inside !! EX_glc__D_e = Some (-100 # 15) /\
  length (constraints inside) = 3%nat /\
  constraints demo_model = [].
Proof. vm_compute. repeat split. Qed.

(** C4: an evaluation of [dynamic_system] or of [infeasible_event] mutates
    the shared model only inside its [with model:] block: when the call is
    over, by a return or by an exception, the reaction bounds, the objective
    and the constraint set are what they were before the call. *)
Theorem evaluations_restore_model `{Cobra} (w : World) (t : Q) (y : list Q) :
  let after_rhs := fst (dynamic_system t y w) in
  let after_event := fst (infeasible_event t y w) in
  (model after_rhs = model w /\
   reactions (model after_rhs) = reactions (model w) /\
   objective (model after_rhs) = objective (model w) /\
   constraints (model after_rhs) = constraints (model w)) /\
  (model after_event = model w /\
   reactions (model after_event) = reactions (model w) /\
   objective (model after_event) = objective (model w) /\
   constraints (model after_event) = constraints (model w)).
Proof.
  intros after_rhs after_event.
  assert (Hrhs : model after_rhs = model w).
  { subst after_rhs. dynamic_system_cases w y.
    - rewrite (dynamic_system_ok _ _ _ _ _ Hadd). cbn [fst].
      unfold pbar_progress. destruct (dynamic_system_pbar w); reflexivity.
    - rewrite (dynamic_system_raise _ _ _ _ _ Hadd). reflexivity.
    - rewrite (dynamic_system_bad_state _ _ _ Hlen). reflexivity. }
  assert (Hevent : model after_event = model w).
  { subst after_event. rewrite infeasible_event_run. reflexivity. }
  rewrite Hrhs, Hevent. repeat split.
Qed.

(** C10: the right-hand side is autonomous: at two times and the same state
    (and the same model) [dynamic_system] returns the same fluxes and leaves
    the same model; the time only reaches the description of the progress
    bar, whose counter advances alike. *)
Theorem dynamic_system_autonomous `{Cobra} (w : World) (t1 t2 : Q) (y : list Q) :
  snd (dynamic_system t1 y w) = snd (dynamic_system t2 y w) /\
  model (fst (dynamic_system t1 y w)) = model (fst (dynamic_system t2 y w)) /\
  pbar_n <$> dynamic_system_pbar (fst (dynamic_system t1 y w))
    = pbar_n <$> dynamic_system_pbar (fst (dynamic_system t2 y w)).
Proof.
  dynamic_system_cases w y.
  - rewrite !(dynamic_system_ok _ _ _ _ _ Hadd). cbn [fst snd].
    unfold pbar_progress. destruct (dynamic_system_pbar w); repeat split.
  - rewrite !(dynamic_system_raise _ _ _ _ _ Hadd). repeat split.
  - rewrite !(dynamic_system_bad_state _ _ _ Hlen). repeat split.
Qed.

(** C6: the state is a 2-vector: the initial condition handed to the
    integrator has two components, [dynamic_system] raises on a state that
    has not exactly two, and what it returns has two components, one per
    lexicographic objective. *)
Theorem state_is_a_two_vector `{Cobra}
    (w : World) (t : Q) (y fluxes : list Q) :
  snd (dynamic_system t y w) = Ok fluxes ->
  (exists biomass glucose : Q, y = [biomass; glucose]) /\
  length fluxes = 2%nat /\
  length fluxes = length [Biomass_Ecoli_core; EX_glc__D_e] /\
  ivp_y0 solve_ivp_call = y0 /\
  length y0 = 2%nat /\
  (forall y' : list Q,
     length y' <> 2%nat -> snd (dynamic_system t y' w) = Raise ValueError).
Proof.
  intros Hrun.
  assert (Hbad : forall y' : list Q,
             length y' <> 2%nat ->
             snd (dynamic_system t y' w) = Raise ValueError).
  { intros y' Hlen. rewrite (dynamic_system_bad_state _ _ _ Hlen). reflexivity. }
  dynamic_system_cases w y.
  - rewrite (dynamic_system_ok _ _ _ _ _ Hadd) in Hrun.
    apply (f_equal (fun r => match r with Ok l => length l | Raise _ => 0%nat end))
      in Hrun.
    unfold snd at 1 in Hrun.
    rewrite length_fmap, add_lexicographic_constraints_length in Hrun.
    rewrite <- Hrun.
    repeat split; eauto.
  - rewrite (dynamic_system_raise _ _ _ _ _ Hadd) in Hrun. discriminate.
  - rewrite (Hbad _ Hlen) in Hrun. discriminate.
Qed.

Lemma state_is_a_two_vector_witness :
  exists fluxes : list Q,
    snd (@dynamic_system (demo_cobra 5) 0 [1 # 10; 10] (demo_world 5))
      = Ok fluxes /\
    length fluxes = 2%nat.
Proof.
  eexists. split; [vm_compute; reflexivity |].
  pose proof (@state_is_a_two_vector (demo_cobra 5) (demo_world 5) 0
                [1 # 10; 10] _ eq_refl) as (_ & Hlen & _).
  exact Hlen.
Defined.

(** ** infeasible_event *)

(** C3, as the code has it: the value of [infeasible_event] at a trial state
    is the LP feasibility distance computed at the bounds set from that
    state minus epsilon = 1e-6, so it is -1e-6 (negative) when the LP is
    feasible and positive only when the distance exceeds epsilon. *)
Theorem infeasible_event_is_distance_minus_epsilon `{Cobra}
    (w : World) (t : Q) (y : list Q) (bounded : CobraModel) :
  add_dynamic_bounds (model w) y = Ok bounded ->
  let distance :=
    snd (fix_objective_as_constraint (add_lp_feasibility bounded)) in
  feasibility_distance w y = Ok distance /\
  snd (infeasible_event t y w) = Ok (distance - (1 # 1000000)) /\
  (distance == 0 -> distance - (1 # 1000000) == - (1 # 1000000)) /\
  (0 < distance - (1 # 1000000) <-> (1 # 1000000) < distance).
Proof.
  intros Hadd distance.
  assert (Hd : feasibility_distance w y = Ok distance)
    by apply (feasibility_distance_ok _ _ _ Hadd).
  split; [exact Hd |].
  split; [rewrite infeasible_event_run, Hd; reflexivity |].
  split; [intros H0; lra |].
  split; intros Hlt; lra.
Qed.

Lemma infeasible_event_is_distance_minus_epsilon_witness :
  snd (@infeasible_event (demo_cobra 5) 0 [1 # 10; 0] (demo_world 5))
    = Ok (24999995 # 5000000).
Proof.
  pose proof (@infeasible_event_is_distance_minus_epsilon (demo_cobra 5)
                (demo_world 5) 0 [1 # 10; 0] _ eq_refl) as (_ & Hrun & _).
  exact Hrun.
Defined.

(** C3, as stated, fails: where the LP is feasible the distance is 0 but the
    event function returns -1e-6. *)
Lemma infeasible_event_differs_from_distance :
  @feasibility_distance (demo_cobra 5) (demo_world 5) [1 # 10; 10] = Ok 0 /\
  snd (@infeasible_event (demo_cobra 5) 0 [1 # 10; 10] (demo_world 5))
    = Ok (-1 # 1000000) /\
  ~ (-1 # 1000000) == 0.
Proof.
  split; [vm_compute; reflexivity |].
  split; [vm_compute; reflexivity |].
  intros Heq. discriminate Heq.
Qed.

(** ** The simulation cell *)

Lemma linspace_lookup (start stop : Q) (num i : nat) :
  (i < num)%nat ->
  linspace start stop num !! i
  = Some (start + inject_Z (Z.of_nat i)
                  * ((stop - start) / (inject_Z (Z.of_nat num) - 1))).
Proof.
  intros Hi. unfold linspace. rewrite list_lookup_fmap.
  rewrite lookup_seq_lt by exact Hi. reflexivity.
Qed.

Lemma linspace_length (start stop : Q) (num : nat) :
  length (linspace start stop num) = num.
Proof. unfold linspace. rewrite length_fmap. apply length_seq. Qed.

Lemma linspace_spacing (start stop : Q) (num i : nat) (a b : Q) :
  linspace start stop num !! i = Some a ->
  linspace start stop num !! S i = Some b ->
  b - a == (stop - start) / (inject_Z (Z.of_nat num) - 1).
Proof.
  intros Ha Hb.
  assert (Hi : (S i < num)%nat).
  { apply lookup_lt_Some in Hb. rewrite linspace_length in Hb. exact Hb. }
  rewrite linspace_lookup in Ha by lia. rewrite linspace_lookup in Hb by lia.
  injection Ha as <-. injection Hb as <-.
  rewrite Nat2Z.inj_succ, <- Z.add_1_r, inject_Z_plus.
  change (inject_Z 1) with 1. ring.
Qed.

(** C7: the simulation starts from [y0 = [0.1, 10]], spans the times 0 to
    15, is evaluated at the 100 equally spaced points of
    [linspace 0 15 100], and its value is what the integrator returns. *)
Theorem simulation_inputs_and_output `{Integrator} (w : World) :
  ivp_y0 solve_ivp_call = [1 # 10; 10] /\
  fst (ivp_t_span solve_ivp_call) == 0 /\
  snd (ivp_t_span solve_ivp_call) == 15 /\
  ivp_t_eval solve_ivp_call = linspace 0 15 100 /\
  length (ivp_t_eval solve_ivp_call) = 100%nat /\
  (exists first last : Q,
     ivp_t_eval solve_ivp_call !! 0%nat = Some first /\ first == 0 /\
     ivp_t_eval solve_ivp_call !! 99%nat = Some last /\ last == 15) /\
  (forall (i : nat) (a b : Q),
     ivp_t_eval solve_ivp_call !! i = Some a ->
     ivp_t_eval solve_ivp_call !! S i = Some b ->
     b - a == 15 # 99) /\
  run_simulation w
    = solve_ivp solve_ivp_call
        {| model := model w; dynamic_system_pbar := Some tqdm |}.
Proof.
  split; [reflexivity |].
  split; [vm_compute; reflexivity |].
  split; [vm_compute; reflexivity |].
  split; [reflexivity |].
  split; [apply linspace_length |].
  split.
  { eexists _, _. cbn [ivp_t_eval solve_ivp_call]. unfold ts.
    rewrite !linspace_lookup by lia.
    split; [reflexivity |]. split; [vm_compute; reflexivity |].
    split; [reflexivity |]. vm_compute; reflexivity. }
  split.
  { intros i a b Ha Hb. cbn [ivp_t_eval solve_ivp_call] in Ha, Hb. unfold ts in Ha, Hb.
    rewrite (linspace_spacing _ _ _ _ _ _ Ha Hb). vm_compute. reflexivity. }
  unfold run_simulation, mbind, M_bind, attach_pbar.
  destruct (solve_ivp solve_ivp_call _) as [w' [sol|e]]; reflexivity.
Qed.

(** ** Event-triggered termination *)







(** * Further properties of the notebook's functions *)

(** ** add_dynamic_bounds: errors and composition *)



Lemma set_lower_bound_twice (value1 value2 : Q) (r : Reaction) :
  set_lower_bound value2 (set_lower_bound value1 r) = set_lower_bound value2 r.
Proof. reflexivity. Qed.

(** X2: the bound set last wins: after a call of [add_dynamic_bounds] a
    second call has the outcome it would have had on the original model, and
    repeating the call with the same state changes nothing. *)
Theorem add_dynamic_bounds_last_wins `{Cobra}
    (model model1 : CobraModel) (y1 y2 : list Q) :
  add_dynamic_bounds model y1 = Ok model1 ->
  add_dynamic_bounds model1 y2 = add_dynamic_bounds model y2 /\
  add_dynamic_bounds model1 y1 = Ok model1.
Proof.
  intros Hadd.
  destruct (add_dynamic_bounds_inv _ _ _ Hadd)
    as (biomass & glucose & r & -> & Hr & ->).
  assert (Hagain : forall b g : Q,
    add_dynamic_bounds
      {| reactions :=
           <[EX_glc__D_e := set_lower_bound (glucose_max_import glucose) r]>
             (reactions model);
         objective := objective model;
         constraints := constraints model |} [b; g]
    = add_dynamic_bounds model [b; g]).
  { intros b g.
    rewrite (add_dynamic_bounds_ok model r b g Hr).
    erewrite add_dynamic_bounds_ok by (cbn; apply lookup_insert_eq).
    cbn. rewrite insert_insert_eq, set_lower_bound_twice. reflexivity. }
  split.
  - destruct y2 as [|b [|g [|extra rest]]]; try reflexivity. apply Hagain.
  - rewrite Hagain. exact Hadd.
Qed.

Lemma add_dynamic_bounds_last_wins_witness :
  exists m1 : @Model string (string * Q),
    @add_dynamic_bounds (demo_cobra 5) demo_model [1 # 10; 10] = Ok m1 /\
    @add_dynamic_bounds (demo_cobra 5) m1 [2 # 10; 5]
    = @add_dynamic_bounds (demo_cobra 5) demo_model [2 # 10; 5].
Proof.
  eexists. split; [reflexivity |].
  exact (proj1 (@add_dynamic_bounds_last_wins (demo_cobra 5) demo_model _
                  [1 # 10; 10] [2 # 10; 5] eq_refl)).
Defined.

(** X3: [add_dynamic_bounds] neither adds nor removes a reaction. *)
Theorem add_dynamic_bounds_keeps_reactions `{Cobra}
    (model model' : CobraModel) (y : list Q) :
  add_dynamic_bounds model y = Ok model' ->
  dom (reactions model') = dom (reactions model).
Proof.
  intros Hadd.
  destruct (add_dynamic_bounds_inv _ _ _ Hadd)
    as (biomass & glucose & r & -> & Hr & ->).
  cbn. apply dom_insert_lookup_L. exists r. exact Hr.
Qed.

Lemma add_dynamic_bounds_keeps_reactions_witness :
  exists model' : @Model string (string * Q),
    @add_dynamic_bounds (demo_cobra 5) demo_model [1 # 10; 10] = Ok model' /\
    dom (reactions model') = dom (reactions demo_model).
Proof.
  eexists. split; [vm_compute; reflexivity |].
  apply (@add_dynamic_bounds_keeps_reactions (demo_cobra 5) demo_model _
           [1 # 10; 10]).
  reflexivity.
Defined.

(** ** The saturation function beyond its bounds *)







(** ** dynamic_system and infeasible_event *)



(** X8: without biomass nothing changes: at biomass 0 every component of the
    derivative returned by [dynamic_system] is 0. *)
Theorem dynamic_system_zero_biomass `{Cobra}
    (w : World) (t biomass glucose : Q) (fluxes : list Q) :
  biomass == 0 ->
  snd (dynamic_system t [biomass; glucose] w) = Ok fluxes ->
  Forall (fun flux => flux == 0) fluxes.
Proof.
  intros Hzero Hrun.
  destruct (add_dynamic_bounds (model w) [biomass; glucose])
    as [bounded|e] eqn:Hadd.
  - rewrite (dynamic_system_ok _ _ _ _ _ Hadd) in Hrun.
    injection Hrun as <-.
    apply Forall_fmap, Forall_forall. intros flux _. cbn.
    rewrite Hzero. ring.
  - rewrite (dynamic_system_raise _ _ _ _ _ Hadd) in Hrun. discriminate.
Qed.

Lemma dynamic_system_zero_biomass_witness :
  exists fluxes : list Q,
    snd (@dynamic_system (demo_cobra 5) 0 [0; 10] (demo_world 5)) = Ok fluxes /\
    Forall (fun flux => flux == 0) fluxes.
Proof.
  eexists. split; [reflexivity |].
  apply (@dynamic_system_zero_biomass (demo_cobra 5) (demo_world 5) 0 0 10).
  - reflexivity.
  - reflexivity.
Defined.


(** X10: an evaluation of [infeasible_event] leaves the whole state of the
    notebook as it was, the progress bar included: evaluations of the event
    function are not counted, whether they return or raise. *)
Theorem infeasible_event_leaves_state `{Cobra} (w : World) (t : Q) (y : list Q) :
  fst (infeasible_event t y w) = w.
Proof. rewrite infeasible_event_run. reflexivity. Qed.

(** X11: the progress bar counts the evaluations of [dynamic_system] that
    return: such a call advances the counter by one and sets the
    description from the time, while a call that raises, or any call made
    with no progress bar attached, leaves the whole state as it was. *)
Theorem dynamic_system_progress `{Cobra} (w : World) (t : Q) (y : list Q) :
  (dynamic_system_pbar w = None -> fst (dynamic_system t y w) = w) /\
  (forall e : PyError,
     snd (dynamic_system t y w) = Raise e -> fst (dynamic_system t y w) = w) /\
  (forall (pbar : Pbar) (fluxes : list Q),
     dynamic_system_pbar w = Some pbar ->
     snd (dynamic_system t y w) = Ok fluxes ->
     fst (dynamic_system t y w)
     = {| model := model w;
          dynamic_system_pbar :=
            Some {| pbar_n := pbar_n pbar + 1;
                    pbar_desc := "t = " +:+ format_3f t |} |}).
Proof.
  dynamic_system_cases w y.
  - rewrite (dynamic_system_ok _ _ _ _ _ Hadd). cbn [fst snd].
    unfold pbar_progress. split; [| split].
    + intros Hnone. rewrite Hnone. reflexivity.
    + intros e Hraise. discriminate Hraise.
    + intros pbar fluxes Hsome _. rewrite Hsome. reflexivity.
  - rewrite (dynamic_system_raise _ _ _ _ _ Hadd). cbn [fst snd].
    split; [| split]; try reflexivity. discriminate.
  - rewrite (dynamic_system_bad_state _ _ _ Hlen). cbn [fst snd].
    split; [| split]; try reflexivity. discriminate.
Qed.

Lemma add_dynamic_bounds_ignores_biomass `{Cobra}
    (model : CobraModel) (biomass biomass' glucose : Q) :
  add_dynamic_bounds model [biomass; glucose]
  = add_dynamic_bounds model [biomass'; glucose].
Proof. reflexivity. Qed.

(** X12: the event function depends on the trial state through the glucose
    concentration only: neither the time nor the biomass changes its
    outcome. *)
Theorem infeasible_event_depends_on_glucose_only `{Cobra}
    (w : World) (t t' biomass biomass' glucose : Q) :
  infeasible_event t [biomass; glucose] w
  = infeasible_event t' [biomass'; glucose] w.
Proof.
  rewrite !infeasible_event_run. unfold feasibility_distance, with_model.
  pose proof (add_dynamic_bounds_ignores_biomass (model w) biomass biomass'
                glucose) as Hsame.
  destruct (add_dynamic_bounds (model w) [biomass; glucose])
    as [bounded|e] eqn:Hadd; symmetry in Hsame.
  - rewrite (lp_feasibility_ok _ _ _ Hadd), (lp_feasibility_ok _ _ _ Hsame).
    reflexivity.
  - rewrite (lp_feasibility_raise _ _ _ Hadd),
      (lp_feasibility_raise _ _ _ Hsame).
    reflexivity.
Qed.

(** ** The time grid and the time span *)

Lemma foldl_Qmin_le_init (l : list Q) :
  forall x : Q, foldl Qmin x l <= x.
Proof.
  induction l as [|a l IH]; intros x; cbn.
  - lra.
  - specialize (IH (Qmin x a)). pose proof (Q.le_min_l x a). lra.
Qed.

Lemma foldl_Qmin_lower (lo : Q) (l : list Q) :
  forall x : Q,
    lo <= x -> Forall (fun a => lo <= a) l -> lo <= foldl Qmin x l.
Proof.
  induction l as [|a l IH]; intros x Hx Hall; cbn.
  - exact Hx.
  - inversion Hall as [|? ? Ha Hrest]; subst.
    apply IH; [| exact Hrest]. apply Q.min_glb; assumption.
Qed.

Lemma foldl_Qmax_upper (hi : Q) (l : list Q) :
  forall x : Q,
    x <= hi -> Forall (fun a => a <= hi) l -> foldl Qmax x l <= hi.
Proof.
  induction l as [|a l IH]; intros x Hx Hall; cbn.
  - exact Hx.
  - inversion Hall as [|? ? Ha Hrest]; subst.
    apply IH; [| exact Hrest]. apply Q.max_lub; assumption.
Qed.

Lemma foldl_Qmax_ge_init (l : list Q) :
  forall x : Q, x <= foldl Qmax x l.
Proof.
  induction l as [|a l IH]; intros x; cbn.
  - lra.
  - specialize (IH (Qmax x a)). pose proof (Q.le_max_l x a). lra.
Qed.

Lemma foldl_Qmax_ge_elem (l : list Q) :
  forall x a : Q, a ∈ l -> a <= foldl Qmax x l.
Proof.
  induction l as [|b l IH]; intros x a Hin; cbn.
  - inversion Hin.
  - apply elem_of_cons in Hin as [-> | Hin].
    + pose proof (foldl_Qmax_ge_init l (Qmax x b)).
      pose proof (Q.le_max_r x b). lra.
    + apply IH, Hin.
Qed.

Lemma linspace_point_bounds (start stop : Q) (num i : nat) :
  start <= stop -> (i < num)%nat ->
  let x := start + inject_Z (Z.of_nat i)
                   * ((stop - start) / (inject_Z (Z.of_nat num) - 1)) in
  start <= x /\ x <= stop.
Proof.
  intros Hle Hi x. subst x.
  set (D := inject_Z (Z.of_nat num) - 1).
  set (I := inject_Z (Z.of_nat i)).
  assert (HI0 : 0 <= I).
  { subst I. change 0 with (inject_Z 0). rewrite <- Zle_Qle. lia. }
  assert (HID : I <= D).
  { subst I D. assert (inject_Z (Z.of_nat i) + 1 <= inject_Z (Z.of_nat num)).
    { change 1 with (inject_Z 1). rewrite <- inject_Z_plus, <- Zle_Qle. lia. }
    lra. }
  destruct (Qlt_le_dec 0 D) as [HD|HD].
  - assert (Hstep : 0 <= (stop - start) / D)
      by (apply Qle_shift_div_l; lra).
    assert (Htotal : (stop - start) / D * D == stop - start)
      by (field; lra).
    split; nra.
  - assert (HI : I == 0) by lra.
    rewrite HI. split; lra.
Qed.

Lemma linspace_last (start stop : Q) (num : nat) :
  (2 <= num)%nat ->
  exists last : Q,
    linspace start stop num !! (num - 1)%nat = Some last /\ last == stop.
Proof.
  intros Hnum. eexists. split; [apply linspace_lookup; lia |].
  assert (Hpred : inject_Z (Z.of_nat (num - 1)) == inject_Z (Z.of_nat num) - 1).
  { rewrite Nat2Z.inj_sub by lia. unfold Zminus. rewrite inject_Z_plus.
    rewrite inject_Z_opp. reflexivity. }
  rewrite Hpred.
  assert (HD : 1 <= inject_Z (Z.of_nat num) - 1).
  { assert (2 <= inject_Z (Z.of_nat num)).
    { change 2 with (inject_Z 2). rewrite <- Zle_Qle. lia. }
    lra. }
  field. lra.
Qed.

(** X13: for an interval [start <= stop] and at least two points, every
    point of [linspace start stop num] lies in the interval, and the
    minimum and the maximum of the grid are [start] and [stop]: the time
    span [(ts.min(), ts.max())] handed to the integrator is the interval the
    grid was made for. *)
Theorem linspace_spans_its_interval (start stop : Q) (num : nat) :
  start <= stop -> (2 <= num)%nat ->
  Forall (fun x => start <= x /\ x <= stop) (linspace start stop num) /\
  array_min (linspace start stop num) == start /\
  array_max (linspace start stop num) == stop.
Proof.
  intros Hle Hnum.
  assert (Hall : Forall (fun x => start <= x /\ x <= stop)
                   (linspace start stop num)).
  { apply Forall_forall. intros x Hx. unfold linspace in Hx.
    apply list_elem_of_fmap in Hx as (i & -> & Hi).
    apply elem_of_seq in Hi. apply linspace_point_bounds; [exact Hle | lia]. }
  split; [exact Hall |].
  destruct (linspace_last start stop num Hnum) as (last & Hlast & Hlast_eq).
  destruct (linspace start stop num) as [|first rest] eqn:Hgrid.
  { rewrite lookup_nil in Hlast. discriminate. }
  assert (Hfirst : first == start).
  { assert (Hlook : linspace start stop num !! 0%nat = Some first)
      by (rewrite Hgrid; reflexivity).
    rewrite linspace_lookup in Hlook by lia. injection Hlook as <-.
    cbn. ring. }
  inversion Hall as [|? ? [Hfirst_lo Hfirst_hi] Hrest]; subst.
  cbn [array_min array_max]. split.
  - apply Qle_antisym.
    + pose proof (foldl_Qmin_le_init rest first). lra.
    + apply foldl_Qmin_lower; [exact Hfirst_lo |].
      eapply Forall_impl; [exact Hrest |]. intros x [Hx _]. exact Hx.
  - apply Qle_antisym.
    + apply foldl_Qmax_upper; [exact Hfirst_hi |].
      eapply Forall_impl; [exact Hrest |]. intros x [_ Hx]. exact Hx.
    + destruct num as [|[|num']]; try lia.
      replace (S (S num') - 1)%nat with (S num') in Hlast by lia.
      change (rest !! num' = Some last) in Hlast.
      apply list_elem_of_lookup_2 in Hlast.
      pose proof (foldl_Qmax_ge_elem rest first last Hlast). lra.
Qed.

Lemma linspace_spans_its_interval_witness :
  array_min ts == 0 /\ array_max ts == 15.
Proof.
  apply (linspace_spans_its_interval 0 15 100).
  - unfold Qle. simpl. lia.
  - lia.
Defined.

(** ** Successive evaluations *)



